(** * gleamaint, [examples/violations.py]: a shallow embedding

    The module under study is a small in-memory record store
    ([UserService]) that draws ids from a module-level [counter] and mirrors
    configuration writes into a module-level [cache], together with a
    batch function ([process_data]) that doubles every item and skips the
    ones for which [item * 2] raises.

    Python objects are mutable and shared; the embedding passes the state
    explicitly.  The module-level names live in [globals], the attributes of
    one instance in [UserService], and a method is a computation over the
    pair of both.  What [str] does to a value belongs to the interpreter
    that runs the module, and is a parameter of [process_data]. *)

From Stdlib Require Import ZArith Floats.PrimFloat.
From stdpp Require Import gmap strings list fin_maps sorting.

Set Warnings "-register-all".

Local Open Scope Z_scope.

(** ** Exceptions and outcomes *)

(** The exceptions met in this module.  [KeyboardInterrupt] stands for the
    classes that derive from [BaseException] only, which [except Exception]
    lets through. *)
Inductive exn : Type :=
| ValueError (msg : string)
| TypeError (msg : string)
| RecursionError (msg : string)
| KeyboardInterrupt.

Definition is_Exception (e : exn) : bool :=
  match e with
  | ValueError _ | TypeError _ | RecursionError _ => true
  | KeyboardInterrupt => false
  end.

Inductive outcome (A : Type) : Type :=
| Return (a : A)
| Raise (e : exn).
Arguments Return {A} a.
Arguments Raise {A} e.

(** ** Python values *)

(** What can be put into [items], stored as a configuration value, or used
    as a dictionary key: the built-in data, and any other object, given by
    the name of its class and by what [obj * 2] does. *)
Inductive value : Type :=
| VNone
| VBool (b : bool)
| VInt (z : Z)
| VFloat (f : float)
| VStr (s : string)
| VList (l : list value)
| VDict (d : list (value * value))
| VObject (cls : string) (mul : outcome value).

(** [type(v).__name__], as it appears in the interpreter's messages. *)
Definition type_name (v : value) : string :=
  match v with
  | VNone => "NoneType"
  | VBool _ => "bool"
  | VInt _ => "int"
  | VFloat _ => "float"
  | VStr _ => "str"
  | VList _ => "list"
  | VDict _ => "dict"
  | VObject cls _ => cls
  end.

(** ** The expression [item * 2]

    Integers are unbounded, a bool is an int, a float is multiplied as a
    binary64, a str or a list is repeated twice, and [None] and dicts have
    no [__mul__] that accepts an int.  An object of another class does what
    its class says. *)
Definition mul_2 (item : value) : outcome value :=
  match item with
  | VBool b => Return (VInt (Z.b2z b * 2))
  | VInt z => Return (VInt (z * 2))
  | VFloat f => Return (VFloat (PrimFloat.mul f 2%float))
  | VStr s => Return (VStr (s +:+ s))
  | VList l => Return (VList (l ++ l))
  | VNone | VDict _ =>
      Raise (TypeError ("unsupported operand type(s) for *: '"
                          +:+ type_name item +:+ "' and 'int'"))
  | VObject _ mul => mul
  end.

(** ** The interpreter

    The handler of [process_data] puts [item] into an f-string, which
    formats it as [str(item)] does; whether that raises is for the
    interpreter and the class of the item to say, so it is a parameter of
    the model. *)
Record interpreter : Type := Interpreter {
  str_raises : value → option exn
}.

(** What [repr(v)] raises in CPython 3.11 and later with its default limit
    of 4300 digits for the conversion of an int to a string, when [depth]
    more calls of [repr] can be nested before the recursion limit is hit:
    the first error met going through the elements of a list, or the keys
    and values of a dict, in order.  The [repr] of an object of another class
    is taken to return. *)
Fixpoint repr_raises (depth : nat) (v : value) : option exn :=
  match depth with
  | O =>
      Some (RecursionError
              "maximum recursion depth exceeded while getting the repr of an object")
  | S d =>
      match v with
      | VInt z =>
          if 10 ^ 4300 <=? Z.abs z
          then Some (ValueError
                       "Exceeds the limit (4300 digits) for integer string conversion; use sys.set_int_max_str_digits() to increase the limit")
          else None
      | VList l =>
          (fix go (l : list value) : option exn :=
             match l with
             | [] => None
             | x :: rest =>
                 match repr_raises d x with
                 | Some e => Some e
                 | None => go rest
                 end
             end) l
      | VDict kvs =>
          (fix go (kvs : list (value * value)) : option exn :=
             match kvs with
             | [] => None
             | (k, x) :: rest =>
                 match repr_raises d k with
                 | Some e => Some e
                 | None =>
                     match repr_raises d x with
                     | Some e => Some e
                     | None => go rest
                     end
                 end
             end) kvs
      | _ => None
      end
  end.

(** For the built-in data other than str, [str(v)] is [repr(v)]; the [str]
    of a str is the str itself. *)
Definition cpython (depth : nat) : interpreter :=
  {| str_raises v :=
       match v with
       | VStr _ => None
       | _ => repr_raises depth v
       end |}.

(** ** State *)

(** One record emitted by [logging.error(f"Failed to process {item}: {e}")]:
    the two values interpolated into the message. *)
Record log_record : Type := ERROR {
  failed_item : value;
  failure : exn
}.

(** The module-level state: [cache], [counter], and the records handed to
    the logging module so far, oldest first. *)
Record globals : Type := Globals {
  cache : gmap string value;
  counter : Z;
  logged : list log_record
}.

(** A user is the dict [{"name": name, "age": age, "id": ...}]. *)
Record user : Type := User {
  user_name : string;
  user_age : Z;
  user_id : Z
}.

(** The attributes of one instance. *)
Record UserService : Type := Service {
  users : list user;
  config : gmap string value
}.

(** ** A state and exception monad *)

Definition M (S A : Type) : Type := S -> outcome A * S.

Definition ret {S A} (a : A) : M S A := fun s => (Return a, s).

Definition raise {S A} (e : exn) : M S A := fun s => (Raise e, s).

Definition bind {S A B} (m : M S A) (k : A -> M S B) : M S B :=
  fun s =>
    match m s with
    | (Return a, s') => k a s'
    | (Raise e, s') => (Raise e, s')
    end.

(** stdpp's [x ← m; k] and [m;; k] are read through these. *)
#[export] Instance M_ret {S} : MRet (M S) := @ret S.
#[export] Instance M_bind {S} : MBind (M S) := fun A B k m => bind m k.

(** [try: body  except Exception as e: handler e].  What [body] did to the
    state before it raised stays done. *)
Definition try_except {S A} (body : M S A) (handler : exn -> M S A) : M S A :=
  fun s =>
    match body s with
    | (Return a, s') => (Return a, s')
    | (Raise e, s') => if is_Exception e then handler e s' else (Raise e, s')
    end.

(** An expression that touches no state. *)
Definition eval {S A} (o : outcome A) : M S A := fun s => (o, s).

(** ** [process_data] *)

(** [logging.error(f"Failed to process {item}: {e}")].  The f-string is
    evaluated first; when [str(item)] raises, nothing is logged. *)
Definition logging_error (py : interpreter) (item : value) (e : exn)
  : M globals unit :=
  match str_raises py item with
  | Some failed => raise failed
  | None =>
      fun g =>
        (Return tt,
         {| cache := cache g; counter := counter g;
            logged := logged g ++ [ERROR item e] |})
  end.

(** One round of the loop body; [results] is the list built so far, and the
    value returned is the list after this round. *)
Definition process_item (py : interpreter) (results : list value)
    (item : value) : M globals (list value) :=
  try_except
    (result ← eval (mul_2 item);
     ret (results ++ [result]))
    (fun e =>
       logging_error py item e;;
       ret results).

Fixpoint for_item_in (py : interpreter) (items : list value)
    (results : list value) : M globals (list value) :=
  match items with
  | [] => ret results
  | item :: rest =>
      results' ← process_item py results item;
      for_item_in py rest results'
  end.

Definition process_data (py : interpreter) (items : list value)
  : M globals (list value) :=
  for_item_in py items [].

(** ** [UserService] *)

(** A method runs on the module state and on [self]. *)
Abbreviation method := (M (globals * UserService)).

Definition __init__ : UserService :=
  {| users := []; config := {["debug" := VBool true]} |}.

Definition read_counter : method Z :=
  fun '(g, self) => (Return (counter g), (g, self)).

Definition write_counter (c : Z) : method unit :=
  fun '(g, self) =>
    (Return tt,
     ({| cache := cache g; counter := c; logged := logged g |}, self)).

Definition users_append (u : user) : method unit :=
  fun '(g, self) =>
    (Return tt, (g, {| users := users self ++ [u]; config := config self |})).

Definition read_users : method (list user) :=
  fun '(g, self) => (Return (users self), (g, self)).

Definition config_setitem (key : string) (v : value) : method unit :=
  fun '(g, self) =>
    (Return tt,
     (g, {| users := users self; config := <[key := v]> (config self) |})).

Definition cache_setitem (key : string) (v : value) : method unit :=
  fun '(g, self) =>
    (Return tt,
     ({| cache := <[key := v]> (cache g); counter := counter g;
         logged := logged g |}, self)).

Definition generate_id : method Z :=
  c ← read_counter;
  write_counter (c + 1);;
  read_counter.

Definition add_user (name : string) (age : Z) : method user :=
  if age <? 0 then raise (ValueError "Age cannot be negative")
  else
    i ← generate_id;
    let user := {| user_name := name; user_age := age; user_id := i |} in
    users_append user;;
    ret user.

(** The [for user in self.users] loop with its early [return]. *)
Fixpoint first_named (name : string) (us : list user) : option user :=
  match us with
  | [] => None
  | u :: rest =>
      if String.eqb (user_name u) name then Some u else first_named name rest
  end.

Definition find_user (name : string) : method (option user) :=
  us ← read_users;
  ret (first_named name us).

Definition update_config (key : string) (v : value) : method unit :=
  config_setitem key v;;
  cache_setitem key v.

(** ** Programs over several instances

    The module state is shared by all the instances a program creates.  A
    [world] holds it next to the instances, which a call names by their
    position in creation order. *)
Record world : Type := World {
  module : globals;
  instances : list UserService
}.

(** The state right after the module is imported: [cache = {}],
    [counter = 0], nothing logged, no instance. *)
Definition g0 : globals := {| cache := ∅; counter := 0; logged := [] |}.

Definition w0 : world := {| module := g0; instances := [] |}.

Inductive call : Type :=
| New
| AddUser (i : nat) (name : string) (age : Z)
| GenerateId (i : nat)
| FindUser (i : nat) (name : string)
| UpdateConfig (i : nat) (key : string) (v : value)
| ProcessData (items : list value).

Inductive reply : Type :=
| Created (i : nat)
| Added (r : outcome user)
| Generated (r : outcome Z)
| Found (r : outcome (option user))
| Updated (r : outcome unit)
| Processed (r : outcome (list value)).

(** Runs the method [m] with instance [i] as [self].  [None] when the program
    names an instance it never created. *)
Definition on_instance {A} (i : nat) (m : method A) (w : world)
  : option (outcome A * world) :=
  match instances w !! i with
  | Some self =>
      let '(r, (g', self')) := m (module w, self) in
      Some (r, {| module := g'; instances := <[i := self']> (instances w) |})
  | None => None
  end.

Definition do_call (py : interpreter) (c : call) (w : world)
  : option (reply * world) :=
  match c with
  | New =>
      Some (Created (length (instances w)),
            {| module := module w; instances := instances w ++ [__init__] |})
  | AddUser i name age =>
      '(r, w') ← on_instance i (add_user name age) w; Some (Added r, w')
  | GenerateId i =>
      '(r, w') ← on_instance i generate_id w; Some (Generated r, w')
  | FindUser i name =>
      '(r, w') ← on_instance i (find_user name) w; Some (Found r, w')
  | UpdateConfig i key v =>
      '(r, w') ← on_instance i (update_config key v) w; Some (Updated r, w')
  | ProcessData items =>
      let '(r, g') := process_data py items (module w) in
      Some (Processed r, {| module := g'; instances := instances w |})
  end.

Fixpoint run (py : interpreter) (cs : list call) (w : world)
  : option (list reply * world) :=
  match cs with
  | [] => Some ([], w)
  | c :: rest =>
      '(r, w') ← do_call py c w;
      '(rs, w'') ← run py rest w';
      Some (r :: rs, w'')
  end.

(** The ids handed out during a run, by [add_user] or by a direct call of
    [generate_id], in the order they were handed out. *)
Definition assigned_id (r : reply) : option Z :=
  match r with
  | Added (Return u) => Some (user_id u)
  | Generated (Return j) => Some j
  | _ => None
  end.

Definition assigned_ids (rs : list reply) : list Z := omap assigned_id rs.

Definition ids_of (self : UserService) : list Z := user_id <$> users self.

(** The ids of all the records of all the instances. *)
Definition all_ids (w : world) : list Z := instances w ≫= ids_of.

(** The invariant of the record store. *)
Record store_invariant (w : world) : Prop := StoreInvariant {
  inv_ages :
    Forall (λ self, Forall (λ u, 0 ≤ user_age u) (users self)) (instances w);
  inv_order :
    Forall (λ self, StronglySorted Z.lt (ids_of self)) (instances w);
  inv_unique : NoDup (all_ids w);
  inv_drawn : Forall (λ j, 1 ≤ j ≤ counter (module w)) (all_ids w);
  inv_counter : 0 ≤ counter (module w)
}.

(** ** What the batch function is meant to compute *)

(** The items for which [item * 2] returns, transformed, in input order. *)
Definition successes (items : list value) : list value :=
  omap (λ item, match mul_2 item with
                | Return v => Some v
                | Raise _ => None
                end) items.

(** One record per item for which [item * 2] raises, in input order. *)
Definition failures (items : list value) : list log_record :=
  omap (λ item, match mul_2 item with
                | Return _ => None
                | Raise e => Some (ERROR item e)
                end) items.

(** [int], [bool] (a subclass of [int]) and [float]. *)
Definition is_number (v : value) : bool :=
  match v with
  | VBool _ | VInt _ | VFloat _ => true
  | _ => false
  end.

(** A number multiplied by two. *)
Definition times_two (v : value) : value :=
  match v with
  | VBool b => VInt (2 * Z.b2z b)
  | VInt z => VInt (2 * z)
  | VFloat f => VFloat (f * 2)%float
  | _ => v
  end.


(** The exception an item lets out of [process_data], if any: one that
    [item * 2] raises and [except Exception] does not catch, or one that
    [str(item)] raises in the handler. *)
Definition escapes (py : interpreter) (item : value) : option exn :=
  match mul_2 item with
  | Return _ => None
  | Raise e => if is_Exception e then str_raises py item else Some e
  end.

Definition handled (py : interpreter) (item : value) : bool :=
  match escapes py item with
  | None => true
  | Some _ => false
  end.

(** ** Vocabulary for programs *)

(** Every instance of [w] is still there in [w'], at the same position; its
    list of users has only been extended at the end, and its config has
    every key it had. *)
Definition grows (w w' : world) : Prop :=
  ∀ (i : nat) (self : UserService),
    instances w !! i = Some self →
    ∃ self', instances w' !! i = Some self'
             ∧ users self `prefix_of` users self'
             ∧ ∀ k, is_Some (config self !! k) → is_Some (config self' !! k).

(** What one call contributes to the module state: the configuration
    write it makes, and whether it takes an id from [counter]. *)
Definition writes_of (c : call) : list (string * value) :=
  match c with
  | UpdateConfig _ key v => [(key, v)]
  | _ => []
  end.

Definition takes_id (c : call) : bool :=
  match c with
  | AddUser _ _ age => negb (age <? 0)
  | GenerateId _ => true
  | _ => false
  end.

(** The calls of [generate_id] a program makes itself. *)
Definition is_GenerateId (c : call) : bool :=
  match c with
  | GenerateId _ => true
  | _ => false
  end.

(** A dict after the assignments [d[k] = v] of a list, made in order. *)
Definition setitems (d : gmap string value) (kvs : list (string * value))
  : gmap string value :=
  foldl (λ m kv, <[kv.1 := kv.2]> m) d kvs.

(** The number of records held by all the instances together. *)
Definition total_records (w : world) : nat :=
  sum_list_with (λ self, length (users self)) (instances w).

(** * Properties *)

Example process_data_mixed :
  process_data (cpython 50)
    [VInt 1; VNone; VFloat 1.5%float; VStr "ab"; VDict []; VBool true] g0
  = (Return [VInt 2; VFloat 3%float; VStr "abab"; VInt 2],
     {| cache := ∅; counter := 0;
        logged :=
          [ERROR VNone
             (TypeError
                "unsupported operand type(s) for *: 'NoneType' and 'int'");
           ERROR (VDict [])
             (TypeError
                "unsupported operand type(s) for *: 'dict' and 'int'")] |}).
Proof. vm_compute. reflexivity. Qed.

Example run_two_services :
  run (cpython 50)
    [New; AddUser 0 "ann" 30; New; AddUser 1 "bob" 41; AddUser 0 "ann" (-1);
     FindUser 0 "ann"; FindUser 1 "ann"] w0
  = Some
      ([Created 0; Added (Return (User "ann" 30 1)); Created 1;
        Added (Return (User "bob" 41 2));
        Added (Raise (ValueError "Age cannot be negative"));
        Found (Return (Some (User "ann" 30 1))); Found (Return None)],
       {| module := {| cache := ∅; counter := 2; logged := [] |};
          instances :=
            [ {| users := [User "ann" 30 1]; config := {["debug" := VBool true]} |};
              {| users := [User "bob" 41 2]; config := {["debug" := VBool true]} |} ] |}).
Proof. vm_compute. reflexivity. Qed.

(** ** The methods, one call at a time *)

Section methods.
Implicit Types (g : globals) (self : UserService) (name key : string).
Implicit Types (age : Z) (v : value) (u : user).

Lemma generate_id_eq g self :
  generate_id (g, self)
  = (Return (counter g + 1),
     ({| cache := cache g; counter := counter g + 1; logged := logged g |},
      self)).
Proof. reflexivity. Qed.

Lemma add_user_eq g self name age :
  0 ≤ age →
  add_user name age (g, self)
  = (Return (User name age (counter g + 1)),
     ({| cache := cache g; counter := counter g + 1; logged := logged g |},
      {| users := users self ++ [User name age (counter g + 1)];
         config := config self |})).
Proof.
  intros Hage. unfold add_user.
  destruct (Z.ltb_spec age 0) as [Hneg|_]; [lia|reflexivity].
Qed.

Lemma add_user_raises g self name age :
  age < 0 →
  add_user name age (g, self)
  = (Raise (ValueError "Age cannot be negative"), (g, self)).
Proof.
  intros Hage. unfold add_user.
  destruct (Z.ltb_spec age 0) as [_|Hpos]; [reflexivity|lia].
Qed.

Lemma find_user_eq g self name :
  find_user name (g, self)
  = (Return (first_named name (users self)), (g, self)).
Proof. reflexivity. Qed.

Lemma update_config_eq g self key v :
  update_config key v (g, self)
  = (Return (),
     ({| cache := <[key := v]> (cache g); counter := counter g;
         logged := logged g |},
      {| users := users self; config := <[key := v]> (config self) |})).
Proof. reflexivity. Qed.

Lemma first_named_Some name us u :
  first_named name us = Some u →
  ∃ before after,
    us = before ++ u :: after ∧ user_name u = name
    ∧ Forall (λ u', user_name u' ≠ name) before.
Proof.
  induction us as [|u' us IH]; simpl; [done|].
  destruct (String.eqb_spec (user_name u') name) as [Heq|Hne].
  - intros [= ->]. by exists [], us.
  - intros (before & after & -> & Hname & Hbefore)%IH.
    exists (u' :: before), after. by repeat constructor.
Qed.

Lemma first_named_None name us :
  first_named name us = None → Forall (λ u', user_name u' ≠ name) us.
Proof.
  induction us as [|u' us IH]; simpl; [by constructor|].
  destruct (String.eqb_spec (user_name u') name); [done|].
  intros ?. constructor; auto.
Qed.
End methods.

(** ** The loop of [process_data] *)

Section batch.
Context (py : interpreter).
Implicit Types (g : globals) (item : value) (items results : list value).


Lemma process_item_eq results item g :
  process_item py results item g
  = match mul_2 item with
    | Return v => (Return (results ++ [v]), g)
    | Raise e =>
        match escapes py item with
        | Some e' => (Raise e', g)
        | None =>
            (Return results,
             {| cache := cache g; counter := counter g;
                logged := logged g ++ [ERROR item e] |})
        end
    end.
Proof.
  unfold process_item, try_except, mbind, M_bind, bind, eval, escapes.
  destruct (mul_2 item) as [v|e] eqn:Hmul; [reflexivity|].
  destruct (is_Exception e); [|reflexivity].
  unfold logging_error. by destruct (str_raises py item).
Qed.

Lemma successes_cons item items :
  successes (item :: items)
  = match mul_2 item with
    | Return v => v :: successes items
    | Raise _ => successes items
    end.
Proof. unfold successes. simpl. by destruct (mul_2 item). Qed.

Lemma failures_cons item items :
  failures (item :: items)
  = match mul_2 item with
    | Return _ => failures items
    | Raise e => ERROR item e :: failures items
    end.
Proof. unfold failures. simpl. by destruct (mul_2 item). Qed.

Lemma failures_app (xs ys : list value) :
  failures (xs ++ ys) = failures xs ++ failures ys.
Proof. unfold failures. by rewrite omap_app. Qed.

Lemma handled_cons item items :
  forallb (handled py) (item :: items) = true →
  escapes py item = None ∧ forallb (handled py) items = true.
Proof.
  cbn [forallb]. intros [Hitem Hitems]%andb_prop. split; [|done].
  unfold handled in Hitem. by destruct (escapes py item).
Qed.

(** The loop when no item lets an exception out. *)
Lemma for_item_in_eq items results g :
  forallb (handled py) items = true →
  for_item_in py items results g
  = (Return (results ++ successes items),
     {| cache := cache g; counter := counter g;
        logged := logged g ++ failures items |}).
Proof.
  revert results g.
  induction items as [|item items IH]; intros results g Hitems.
  - simpl. rewrite !app_nil_r. by destruct g.
  - apply handled_cons in Hitems as [Hitem Hitems].
    cbn [for_item_in]. unfold mbind, M_bind, bind.
    rewrite process_item_eq, successes_cons, failures_cons, Hitem.
    destruct (mul_2 item) as [v|e]; rewrite IH by done; simpl;
      by rewrite <- app_assoc.
Qed.

Lemma process_data_eq items g :
  forallb (handled py) items = true →
  process_data py items g
  = (Return (successes items),
     {| cache := cache g; counter := counter g;
        logged := logged g ++ failures items |}).
Proof. intros Hitems. unfold process_data. by rewrite for_item_in_eq. Qed.


(** The loop goes on from the values it has. *)
Lemma for_item_in_app xs ys results g :
  for_item_in py (xs ++ ys) results g
  = match for_item_in py xs results g with
    | (Return results', g') => for_item_in py ys results' g'
    | (Raise e, g') => (Raise e, g')
    end.
Proof.
  revert results g. induction xs as [|x xs IH]; intros results g; [done|].
  cbn [for_item_in app]. unfold mbind, M_bind, bind.
  destruct (process_item py results x g) as [[results'|e] g']; [apply IH|done].
Qed.

Lemma for_item_in_results items results g :
  for_item_in py items results g
  = match for_item_in py items [] g with
    | (Return more, g') => (Return (results ++ more), g')
    | (Raise e, g') => (Raise e, g')
    end.
Proof.
  revert results g. induction items as [|item items IH]; intros results g.
  - simpl. unfold ret. by rewrite app_nil_r.
  - cbn [for_item_in]. unfold mbind, M_bind, bind.
    rewrite !process_item_eq.
    destruct (mul_2 item) as [v|e].
    + rewrite (IH (results ++ [v])), (IH ([] ++ [v])).
      destruct (for_item_in py items [] g) as [[more|e] g']; [|done].
      by rewrite <- app_assoc.
    + destruct (escapes py item); [done|]. apply IH.
Qed.

(** Whatever the outcome, a batch only appends to the log. *)
Lemma for_item_in_module items results g r g' :
  for_item_in py items results g = (r, g') →
  cache g' = cache g ∧ counter g' = counter g
  ∧ logged g `prefix_of` logged g'.
Proof.
  revert results g. induction items as [|item items IH]; intros results g.
  - simpl. by intros [= <- <-].
  - cbn [for_item_in]. unfold mbind, M_bind, bind.
    rewrite process_item_eq.
    destruct (mul_2 item) as [v|e]; [apply IH|].
    destruct (escapes py item); [by intros [= <- <-]|].
    intros (-> & -> & Hlog)%IH. simpl in *.
    repeat split. by eapply prefix_app_l.
Qed.

Lemma process_data_module items g r g' :
  process_data py items g = (r, g') →
  cache g' = cache g ∧ counter g' = counter g
  ∧ logged g `prefix_of` logged g'.
Proof. apply for_item_in_module. Qed.




Lemma numbers_handled items :
  forallb is_number items = true → forallb (handled py) items = true.
Proof.
  induction items as [|item items IH]; [done|].
  cbn [forallb]. intros [Hitem Hitems]%andb_prop.
  rewrite IH by done. by destruct item.
Qed.

Lemma successes_numbers items :
  forallb is_number items = true →
  successes items = times_two <$> items ∧ failures items = [].
Proof.
  induction items as [|item items IH]; [done|].
  cbn [forallb]. intros [Hitem [Hs Hf]%IH]%andb_prop.
  rewrite successes_cons, failures_cons, Hs, Hf.
  destruct item; try discriminate Hitem; simpl;
    by rewrite ?(Z.mul_comm _ 2).
Qed.
End batch.

(** ** The invariant along a run *)

Section runs.
Implicit Types (w : world) (g : globals) (self : UserService) (u : user).
Implicit Types (c : call) (cs : list call) (r : reply) (rs : list reply).

Lemma instances_split (l : list UserService) (i : nat) self self' :
  l !! i = Some self →
  ∃ l1 l2, l = l1 ++ self :: l2 ∧ <[i := self']> l = l1 ++ self' :: l2.
Proof.
  intros Hi. exists (take i l), (drop (S i) l). split.
  - symmetry. by apply take_drop_middle.
  - apply insert_take_drop. by eapply lookup_lt_Some.
Qed.

Lemma store_invariant_w0 : store_invariant w0.
Proof. split; simpl; [constructor..|done]. Qed.

(** A call that leaves [self.users] and [counter] alone. *)
Lemma store_invariant_same_users w (i : nat) self self' g' :
  store_invariant w →
  instances w !! i = Some self →
  users self' = users self →
  counter g' = counter (module w) →
  store_invariant {| module := g'; instances := <[i := self']> (instances w) |}.
Proof.
  intros [Hages Horder Hunique Hdrawn Hpos] Hi Husers Hcounter.
  unfold all_ids in *.
  destruct (instances_split _ i self self' Hi) as (l1 & l2 & Hl & Hl').
  assert (ids_of self' = ids_of self) as Hids
    by (unfold ids_of; by rewrite Husers).
  split; unfold all_ids; simpl; rewrite ?Hcounter.
  - apply Forall_insert; [done|]. rewrite Husers.
    by eapply (Forall_lookup_1 _ _ _ _ Hages).
  - apply Forall_insert; [done|]. rewrite Hids.
    by eapply (Forall_lookup_1 _ _ _ _ Horder).
  - rewrite Hl', bind_app, bind_cons, Hids, <- bind_cons, <- bind_app.
    by rewrite <- Hl.
  - rewrite Hl', bind_app, bind_cons, Hids, <- bind_cons, <- bind_app.
    by rewrite <- Hl.
  - done.
Qed.

(** A call that appends a record carrying the next id. *)
Lemma store_invariant_append w (i : nat) self self' u g' :
  store_invariant w →
  instances w !! i = Some self →
  users self' = users self ++ [u] →
  0 ≤ user_age u →
  user_id u = counter (module w) + 1 →
  counter g' = counter (module w) + 1 →
  store_invariant {| module := g'; instances := <[i := self']> (instances w) |}.
Proof.
  intros [Hages Horder Hunique Hdrawn Hpos] Hi Husers Hage Hid Hcounter.
  unfold all_ids in *.
  destruct (instances_split _ i self self' Hi) as (l1 & l2 & Hl & Hl').
  assert (ids_of self' = ids_of self ++ [user_id u]) as Hids
    by (unfold ids_of; by rewrite Husers, fmap_app).
  assert ((l1 ++ self' :: l2) ≫= ids_of
          ≡ₚ user_id u :: (instances w ≫= ids_of)) as Hperm.
  { rewrite Hl, !bind_app, !bind_cons, Hids.
    rewrite <- app_assoc. simpl.
    rewrite (Permutation_middle (_ ≫= _) _ (user_id u)).
    by rewrite <- Permutation_middle. }
  assert (Forall (λ j, 1 ≤ j ≤ counter (module w)) (ids_of self)) as Hself.
  { rewrite Hl, bind_app, bind_cons, !Forall_app in Hdrawn.
    by destruct Hdrawn as (_ & ? & _). }
  split; unfold all_ids; simpl; rewrite ?Hcounter.
  - apply Forall_insert; [done|]. rewrite Husers.
    apply Forall_app. split; [|by repeat constructor].
    by eapply (Forall_lookup_1 _ _ _ _ Hages).
  - apply Forall_insert; [done|]. rewrite Hids.
    apply StronglySorted_app_2.
    + intros j1 j2 Hj1 ->%list_elem_of_singleton.
      rewrite Forall_forall in Hself. specialize (Hself _ Hj1). lia.
    + by eapply (Forall_lookup_1 _ _ _ _ Horder).
    + repeat constructor.
  - rewrite Hl', Hperm. apply NoDup_cons. split; [|done].
    intros Hin. rewrite Forall_forall in Hdrawn.
    specialize (Hdrawn _ Hin). lia.
  - rewrite Hl', Hperm. constructor; [lia|].
    eapply Forall_impl; [exact Hdrawn|]. simpl. lia.
  - lia.
Qed.

Lemma store_invariant_module w g' :
  store_invariant w →
  counter g' = counter (module w) →
  store_invariant {| module := g'; instances := instances w |}.
Proof.
  intros [Hages Horder Hunique Hdrawn Hpos] Hcounter.
  split; unfold all_ids in *; simpl; by rewrite ?Hcounter.
Qed.

Lemma store_invariant_New w :
  store_invariant w →
  store_invariant
    {| module := module w; instances := instances w ++ [__init__] |}.
Proof.
  intros [Hages Horder Hunique Hdrawn Hpos].
  split; unfold all_ids in *; simpl;
    rewrite ?bind_app, ?bind_cons, ?app_nil_r; try done.
  - apply Forall_app. split; [done|]. by repeat constructor.
  - apply Forall_app. split; [done|]. by repeat constructor.
Qed.

Lemma seqZ_nothing (c : Z) : [] = seqZ (c + 1) (c - c).
Proof. by rewrite seqZ_nil by lia. Qed.

Lemma seqZ_next (c : Z) : [c + 1] = seqZ (c + 1) (c + 1 - c).
Proof. rewrite seqZ_cons by lia. by rewrite seqZ_nil by lia. Qed.

Lemma store_invariant_counter_le w g' :
  store_invariant w →
  counter (module w) ≤ counter g' →
  store_invariant {| module := g'; instances := instances w |}.
Proof.
  intros [Hages Horder Hunique Hdrawn Hpos] Hcounter.
  split; unfold all_ids in *; simpl; try done; [|lia].
  eapply Forall_impl; [exact Hdrawn|]. simpl. lia.
Qed.

(** Every call keeps the invariant, and hands out the next id or none. *)
Lemma do_call_invariant py c w r w' :
  store_invariant w →
  do_call py c w = Some (r, w') →
  store_invariant w'
  ∧ assigned_ids [r]
    = seqZ (counter (module w) + 1)
        (counter (module w') - counter (module w))
  ∧ counter (module w) ≤ counter (module w').
Proof.
  intros Hinv.
  destruct c as [|i name age|i|i name|i key v|items]; simpl;
    unfold on_instance.
  - intros [= <- <-]. simpl. split; [by apply store_invariant_New|].
    split; [apply seqZ_nothing|done].
  - destruct (instances w !! i) as [self|] eqn:Hi; [|done].
    destruct (Z.lt_ge_cases age 0) as [Hage|Hage].
    + rewrite add_user_raises by done. intros [= <- <-]. simpl.
      split; [by eapply store_invariant_same_users|].
      split; [apply seqZ_nothing|done].
    + rewrite add_user_eq by done. intros [= <- <-]. simpl.
      split; [by eapply store_invariant_append|].
      split; [apply seqZ_next|lia].
  - destruct (instances w !! i) as [self|] eqn:Hi; [|done].
    rewrite generate_id_eq. intros [= <- <-]. simpl.
    split; [|split; [apply seqZ_next|lia]].
    apply (store_invariant_counter_le
             {| module := module w; instances := <[i := self]> (instances w) |});
      [|simpl; lia].
    by eapply store_invariant_same_users.
  - destruct (instances w !! i) as [self|] eqn:Hi; [|done].
    rewrite find_user_eq. intros [= <- <-]. simpl.
    split; [by eapply store_invariant_same_users|].
    split; [apply seqZ_nothing|done].
  - destruct (instances w !! i) as [self|] eqn:Hi; [|done].
    rewrite update_config_eq. intros [= <- <-]. simpl.
    split; [by eapply store_invariant_same_users|].
    split; [apply seqZ_nothing|done].
  - destruct (process_data py items (module w)) as [r0 g'] eqn:Hbatch.
    apply process_data_module in Hbatch as (_ & Hcounter & _).
    intros [= <- <-]. simpl. rewrite Hcounter.
    split; [by apply store_invariant_module|].
    split; [apply seqZ_nothing|done].
Qed.

Lemma run_invariant py cs w rs w' :
  store_invariant w →
  run py cs w = Some (rs, w') →
  store_invariant w'
  ∧ assigned_ids rs
    = seqZ (counter (module w) + 1)
        (counter (module w') - counter (module w))
  ∧ counter (module w) ≤ counter (module w').
Proof.
  revert w rs. induction cs as [|c cs IH]; intros w rs Hinv; simpl.
  - intros [= <- <-]. split; [done|]. split; [apply seqZ_nothing|done].
  - destruct (do_call py c w) as [[r w1]|] eqn:Hc; simpl; [|done].
    destruct (run py cs w1) as [[rs1 w2]|] eqn:Hrun; simpl; [|done].
    intros [= <- <-].
    destruct (do_call_invariant _ _ _ _ _ Hinv Hc) as (Hinv1 & Hr & Hle).
    destruct (IH _ _ Hinv1 Hrun) as (Hinv2 & Hrs & Hle').
    split; [done|]. split; [|lia].
    change (r :: rs1) with ([r] ++ rs1).
    unfold assigned_ids in *. rewrite omap_app, Hr, Hrs.
    replace (counter (module w1) + 1)
      with (counter (module w) + 1
            + (counter (module w1) - counter (module w))) by lia.
    rewrite <- seqZ_app by lia. f_equal; lia.
Qed.
End runs.

(** * The claims *)

(** C1.  Whatever the state of the module and of the instance, [add_user]
    with an age that is not negative returns a record with the given name
    and age and with the id [counter + 1]; that record is appended at the
    end of [self.users], [counter] grows by exactly one, and nothing else
    changes.  In the state reached by any run from the freshly imported
    module, the id is strictly greater than every id handed out during
    that run. *)
Theorem add_user_returns_fresh_record :
  (∀ (g : globals) (self : UserService) (name : string) (age : Z),
     0 ≤ age →
     ∃ u g' self',
       add_user name age (g, self) = (Return u, (g', self'))
       ∧ user_name u = name ∧ user_age u = age
       ∧ user_id u = counter g + 1
       ∧ users self' = users self ++ [u]
       ∧ config self' = config self
       ∧ counter g' = counter g + 1
       ∧ cache g' = cache g ∧ logged g' = logged g)
  ∧ (∀ (py : interpreter) (cs : list call) (rs : list reply) (w : world)
       (i : nat) (self : UserService) (name : string) (age : Z),
       run py cs w0 = Some (rs, w) →
       instances w !! i = Some self →
       0 ≤ age →
       ∃ u st,
         add_user name age (module w, self) = (Return u, st)
         ∧ Forall (λ j, j < user_id u) (assigned_ids rs)).
Proof.
  split.
  - intros g self name age Hage.
    eexists _, _, _. rewrite add_user_eq by done.
    repeat split; reflexivity.
  - intros py cs rs w i self name age Hrun _ Hage.
    destruct (run_invariant _ _ _ _ _ store_invariant_w0 Hrun)
      as (_ & Hrs & _).
    eexists _, _. rewrite add_user_eq by done. split; [reflexivity|].
    rewrite Hrs. apply Forall_forall. intros j Hj%elem_of_seqZ.
    simpl in *. lia.
Qed.

Lemma add_user_returns_fresh_record_witness :
  (∃ u g' self',
     add_user "ann" 30 (g0, __init__) = (Return u, (g', self'))
     ∧ user_name u = "ann" ∧ user_age u = 30
     ∧ user_id u = counter g0 + 1
     ∧ users self' = users __init__ ++ [u]
     ∧ config self' = config __init__
     ∧ counter g' = counter g0 + 1
     ∧ cache g' = cache g0 ∧ logged g' = logged g0)
  ∧ (∃ u st,
       add_user "cy" 0
         ({| cache := ∅; counter := 2; logged := [] |},
          {| users := [User "ann" 30 1];
             config := {["debug" := VBool true]} |})
       = (Return u, st)
       ∧ Forall (λ j, j < user_id u)
           (assigned_ids
              [Created 0; Added (Return (User "ann" 30 1)); Created 1;
               Added (Return (User "bob" 41 2))])).
Proof.
  split.
  - apply (proj1 add_user_returns_fresh_record). lia.
  - apply (proj2 add_user_returns_fresh_record (cpython 50)
             [New; AddUser 0 "ann" 30; New; AddUser 1 "bob" 41]
             [Created 0; Added (Return (User "ann" 30 1)); Created 1;
              Added (Return (User "bob" 41 2))]
             {| module := {| cache := ∅; counter := 2; logged := [] |};
                instances :=
                  [ {| users := [User "ann" 30 1];
                       config := {["debug" := VBool true]} |};
                    {| users := [User "bob" 41 2];
                       config := {["debug" := VBool true]} |} ] |}
             0%nat).
    + vm_compute. reflexivity.
    + reflexivity.
    + lia.
Defined.

(** C2.  With a negative age, [add_user] raises
    [ValueError("Age cannot be negative")] and leaves the module state
    and the instance exactly as they were: no record is added and
    [counter] keeps its value. *)
Theorem add_user_negative_age_raises
    (g : globals) (self : UserService) (name : string) (age : Z) :
  age < 0 →
  add_user name age (g, self)
  = (Raise (ValueError "Age cannot be negative"), (g, self)).
Proof. apply add_user_raises. Qed.

Lemma add_user_negative_age_raises_witness :
  add_user "ann" (-1)
    ({| cache := ∅; counter := 7; logged := [] |},
     {| users := [User "bob" 41 7]; config := ∅ |})
  = (Raise (ValueError "Age cannot be negative"),
     ({| cache := ∅; counter := 7; logged := [] |},
      {| users := [User "bob" 41 7]; config := ∅ |})).
Proof. apply add_user_negative_age_raises. lia. Defined.

(** C5.  [find_user] returns without raising and leaves the module state
    and the instance as they were.  When it returns a record, that record
    is in [self.users], its name is the argument, and no record before it
    has that name; when it returns [None], no record has that name. *)
Theorem find_user_first_match
    (g : globals) (self : UserService) (name : string) :
  ∃ found,
    find_user name (g, self) = (Return found, (g, self))
    ∧ match found with
      | Some u =>
          ∃ before after,
            users self = before ++ u :: after
            ∧ user_name u = name
            ∧ Forall (λ u', user_name u' ≠ name) before
      | None => Forall (λ u', user_name u' ≠ name) (users self)
      end.
Proof.
  exists (first_named name (users self)). split; [apply find_user_eq|].
  destruct (first_named name (users self)) as [u|] eqn:Hfound.
  - by apply first_named_Some.
  - by apply first_named_None.
Qed.

(** C10.  [add_user] raises exactly when the age is negative; the name is
    not looked at.  In particular two calls with the same name and ages
    that are not negative both return, and leave two records with
    different ids at the end of [self.users]. *)
Theorem add_user_fails_iff_negative :
  (∀ (g : globals) (self : UserService) (name : string) (age : Z),
     (∃ e st, add_user name age (g, self) = (Raise e, st)) ↔ age < 0)
  ∧ (∀ (g : globals) (self : UserService) (name : string) (age1 age2 : Z),
       0 ≤ age1 → 0 ≤ age2 →
       ∃ u1 st1 u2 g2 self2,
         add_user name age1 (g, self) = (Return u1, st1)
         ∧ add_user name age2 st1 = (Return u2, (g2, self2))
         ∧ users self2 = users self ++ [u1; u2]
         ∧ user_name u1 = name ∧ user_name u2 = name
         ∧ user_id u1 ≠ user_id u2).
Proof.
  split.
  - intros g self name age. split.
    + intros (e & st & Hraise).
      destruct (Z.lt_ge_cases age 0) as [Hage|Hage]; [done|].
      rewrite add_user_eq in Hraise by done. discriminate Hraise.
    + intros Hage. eexists _, _. by apply add_user_raises.
  - intros g self name age1 age2 Hage1 Hage2.
    eexists _, _, _, _, _.
    rewrite add_user_eq by done. split; [reflexivity|].
    rewrite add_user_eq by done. split; [reflexivity|]. simpl.
    rewrite <- app_assoc. repeat split; try reflexivity. lia.
Qed.

Lemma add_user_fails_iff_negative_witness :
  ((∃ e st, add_user "" (-3) (g0, __init__) = (Raise e, st)) ↔ -3 < 0)
  ∧ (∃ u1 st1 u2 g2 self2,
       add_user "" 0 (g0, __init__) = (Return u1, st1)
       ∧ add_user "" 0 st1 = (Return u2, (g2, self2))
       ∧ users self2 = users __init__ ++ [u1; u2]
       ∧ user_name u1 = "" ∧ user_name u2 = ""
       ∧ user_id u1 ≠ user_id u2).
Proof.
  split.
  - apply (proj1 add_user_fails_iff_negative).
  - apply (proj2 add_user_fails_iff_negative); lia.
Defined.




(** C4.  [process_data([1, 2, 3])] returns [[2, 4, 6]]; and for a list whose
    items are all numbers it returns each item multiplied by two, in the
    same order and as many as there were, and logs nothing. *)
Theorem process_data_doubles_numbers :
  (∀ (py : interpreter) (g : globals),
     process_data py [VInt 1; VInt 2; VInt 3] g
     = (Return [VInt 2; VInt 4; VInt 6], g))
  ∧ (∀ (py : interpreter) (items : list value) (g : globals),
       forallb is_number items = true →
       ∃ results,
         process_data py items g = (Return results, g)
         ∧ results = times_two <$> items
         ∧ length results = length items).
Proof.
  split.
  - intros py [c n l]. reflexivity.
  - intros py items [c n l] Hnumbers.
    destruct (successes_numbers _ Hnumbers) as [Hs Hf].
    eexists. rewrite process_data_eq, Hs, Hf by by apply numbers_handled.
    simpl.
    rewrite app_nil_r. split; [reflexivity|].
    split; [reflexivity|apply length_fmap].
Qed.

Lemma process_data_doubles_numbers_witness :
  process_data (cpython 50) [VInt 1; VInt 2; VInt 3] g0
  = (Return [VInt 2; VInt 4; VInt 6], g0)
  ∧ ∃ results,
      process_data (cpython 50) [VInt (-4); VBool true; VFloat 1.5%float] g0
      = (Return results, g0)
      ∧ results = times_two <$> [VInt (-4); VBool true; VFloat 1.5%float]
      ∧ length results = 3%nat.
Proof.
  split.
  - apply (proj1 process_data_doubles_numbers).
  - apply (proj2 process_data_doubles_numbers (cpython 50)
             [VInt (-4); VBool true; VFloat 1.5%float] g0).
    reflexivity.
Defined.

(** C6.  [update_config(key, v)] returns without raising, and afterwards
    both [self.config[key]] and the module's [cache[key]] are [v], whatever
    the instance; in a program with several instances, the module's cache
    holds [v] at [key] after the call whichever instance made it. *)
Theorem update_config_sets_config_and_cache :
  (∀ (g : globals) (self : UserService) (key : string) (v : value),
     ∃ g' self',
       update_config key v (g, self) = (Return (), (g', self'))
       ∧ config self' !! key = Some v
       ∧ cache g' !! key = Some v)
  ∧ (∀ (py : interpreter) (w : world) (i : nat) (self : UserService)
       (key : string) (v : value),
       instances w !! i = Some self →
       ∃ w' self',
         do_call py (UpdateConfig i key v) w = Some (Updated (Return ()), w')
         ∧ cache (module w') !! key = Some v
         ∧ instances w' !! i = Some self'
         ∧ config self' !! key = Some v).
Proof.
  split.
  - intros g self key v. eexists _, _. rewrite update_config_eq.
    split; [reflexivity|]. simpl. split; apply lookup_insert_eq.
  - intros py w i self key v Hi. simpl. unfold on_instance.
    rewrite Hi, update_config_eq. simpl. eexists _, _.
    split; [reflexivity|]. simpl.
    split; [apply lookup_insert_eq|]. split.
    + apply list_lookup_insert_eq. by eapply lookup_lt_Some.
    + apply lookup_insert_eq.
Qed.

Lemma update_config_sets_config_and_cache_witness :
  (∃ g' self',
     update_config "debug" (VBool false) (g0, __init__)
     = (Return (), (g', self'))
     ∧ config self' !! "debug" = Some (VBool false)
     ∧ cache g' !! "debug" = Some (VBool false))
  ∧ (∃ w' self',
       do_call (cpython 50) (UpdateConfig 1 "mode" (VStr "fast"))
         {| module := g0; instances := [__init__; __init__] |}
       = Some (Updated (Return ()), w')
       ∧ cache (module w') !! "mode" = Some (VStr "fast")
       ∧ instances w' !! 1%nat = Some self'
       ∧ config self' !! "mode" = Some (VStr "fast")).
Proof.
  split.
  - apply (proj1 update_config_sets_config_and_cache).
  - apply (proj2 update_config_sets_config_and_cache (cpython 50)
             {| module := g0; instances := [__init__; __init__] |}
             1%nat __init__).
    reflexivity.
Defined.

(** C7.  A second [update_config(key, v)] right after the first changes
    nothing: it returns, and the module state and the instance are what
    the first call left. *)
Theorem update_config_idempotent
    (g : globals) (self : UserService) (key : string) (v : value) :
  ∃ st,
    update_config key v (g, self) = (Return (), st)
    ∧ update_config key v st = (Return (), st).
Proof.
  eexists. rewrite update_config_eq. split; [reflexivity|].
  rewrite update_config_eq. simpl. by rewrite !insert_insert_eq.
Qed.

(** C8.  In every state a program can reach from the freshly imported
    module by creating instances and calling [add_user], [find_user],
    [update_config] and [process_data], every record of every instance has
    an age that is not negative, the ids of the records of all instances
    together are pairwise different, the ids within one instance increase
    strictly in insertion order, every id stored is one that [add_user]
    handed out, and the ids handed out are [1, 2, ..., counter] in that
    order. *)
Theorem store_invariant_reachable
    (py : interpreter) (cs : list call) (rs : list reply) (w : world) :
  run py cs w0 = Some (rs, w) →
  store_invariant w
  ∧ assigned_ids rs = seqZ 1 (counter (module w))
  ∧ (∀ j, j ∈ all_ids w → j ∈ assigned_ids rs).
Proof.
  intros Hrun.
  destruct (run_invariant _ _ _ _ _ store_invariant_w0 Hrun)
    as (Hinv & Hrs & _).
  simpl in Hrs. rewrite Z.sub_0_r in Hrs.
  split; [done|]. split; [done|].
  intros j Hj. rewrite Hrs, elem_of_seqZ.
  pose proof (inv_drawn w Hinv) as Hdrawn.
  rewrite Forall_forall in Hdrawn. specialize (Hdrawn _ Hj). lia.
Qed.

Lemma store_invariant_reachable_witness :
  let w :=
    {| module :=
         {| cache := {["mode" := VStr "fast"]}; counter := 3; logged := [] |};
       instances :=
         [ {| users := [User "ann" 30 1; User "ann" 0 3];
              config := {["debug" := VBool true]} |};
           {| users := [User "bob" 41 2];
              config := <["mode" := VStr "fast"]> {["debug" := VBool true]} |}
         ] |} in
  let rs :=
    [Created 0; Added (Return (User "ann" 30 1)); Created 1;
     Added (Return (User "bob" 41 2));
     Added (Raise (ValueError "Age cannot be negative"));
     Updated (Return ()); Added (Return (User "ann" 0 3));
     Found (Return (Some (User "ann" 30 1)))] in
  store_invariant w
  ∧ assigned_ids rs = seqZ 1 (counter (module w))
  ∧ (∀ j, j ∈ all_ids w → j ∈ assigned_ids rs).
Proof.
  apply (store_invariant_reachable (cpython 50)
           [New; AddUser 0 "ann" 30; New; AddUser 1 "bob" 41;
            AddUser 1 "eve" (-2); UpdateConfig 1 "mode" (VStr "fast");
            AddUser 0 "ann" 0; FindUser 0 "ann"]).
  vm_compute. reflexivity.
Defined.

(** C9.  [update_config(key, v)] touches nothing but the entry at [key]:
    at every other key [self.config] and the module's [cache] read as
    before, and [self.users], [counter] and the log are unchanged. *)
Theorem update_config_frame
    (g : globals) (self : UserService) (key : string) (v : value)
    (k' : string) :
  k' ≠ key →
  ∃ g' self',
    update_config key v (g, self) = (Return (), (g', self'))
    ∧ config self' !! k' = config self !! k'
    ∧ cache g' !! k' = cache g !! k'
    ∧ users self' = users self
    ∧ counter g' = counter g
    ∧ logged g' = logged g.
Proof.
  intros Hne. eexists _, _. rewrite update_config_eq.
  split; [reflexivity|]. simpl.
  by rewrite !lookup_insert_ne.
Qed.

Lemma update_config_frame_witness :
  let g := {| cache := {["debug" := VInt 1]}; counter := 4; logged := [] |} in
  let self :=
    {| users := [User "ann" 30 4]; config := {["debug" := VBool true]} |} in
  ∃ g' self',
    update_config "mode" (VStr "fast") (g, self) = (Return (), (g', self'))
    ∧ config self' !! "debug" = config self !! "debug"
    ∧ cache g' !! "debug" = cache g !! "debug"
    ∧ users self' = users self
    ∧ counter g' = counter g
    ∧ logged g' = logged g.
Proof.
  intros g self.
  apply (update_config_frame g self "mode" (VStr "fast") "debug").
  discriminate.
Defined.

(** * Further properties *)

(** ** Looking up after adding *)

Lemma first_named_app (name : string) (us us' : list user) :
  first_named name (us ++ us')
  = match first_named name us with
    | Some u => Some u
    | None => first_named name us'
    end.
Proof.
  induction us as [|u us IH]; simpl; [done|].
  by destruct (String.eqb (user_name u) name).
Qed.

(** X1.  After [add_user(name, age)] has returned, [find_user(name')]
    answers as it did before the call whenever it found a record before;
    when it found none, it now finds the new record if [name' = name], and
    still none otherwise.  So a record added under a name that is already
    taken is never the one [find_user] returns. *)
Theorem find_user_after_add_user
    (g : globals) (self : UserService) (name name' : string) (age : Z) :
  0 ≤ age →
  ∃ u st found,
    add_user name age (g, self) = (Return u, st)
    ∧ find_user name' (g, self) = (Return found, (g, self))
    ∧ find_user name' st
      = (Return match found with
                | Some old => Some old
                | None => if decide (name = name') then Some u else None
                end, st).
Proof.
  intros Hage. eexists _, _, _. rewrite add_user_eq by done.
  split; [reflexivity|]. rewrite !find_user_eq. split; [reflexivity|].
  simpl. rewrite first_named_app. simpl.
  destruct (first_named name' (users self)); [done|].
  destruct (String.eqb_spec name name'); by case_decide.
Qed.

Lemma find_user_after_add_user_witness :
  let g := {| cache := ∅; counter := 1; logged := [] |} in
  let self := {| users := [User "ann" 30 1]; config := ∅ |} in
  ∃ u st found,
    add_user "ann" 7 (g, self) = (Return u, st)
    ∧ find_user "ann" (g, self) = (Return found, (g, self))
    ∧ find_user "ann" st
      = (Return match found with
                | Some old => Some old
                | None => if decide ("ann" = "ann") then Some u else None
                end, st).
Proof.
  intros g self. apply (find_user_after_add_user g self "ann" "ann" 7). lia.
Defined.

(** ** Batches *)

(** X2.  Processing [xs + ys] in one call does what processing [xs] and
    then, if that call returned, [ys] does: the values returned are those of
    the two calls one after the other, and the log is the same.  When an
    exception leaves the call on [xs], the same exception leaves the call on
    [xs + ys] with the same log, and no item of [ys] is processed. *)
Theorem process_data_app
    (py : interpreter) (xs ys : list value) (g : globals) :
  process_data py (xs ++ ys) g
  = match process_data py xs g with
    | (Return r1, g1) =>
        match process_data py ys g1 with
        | (Return r2, g2) => (Return (r1 ++ r2), g2)
        | (Raise e, g2) => (Raise e, g2)
        end
    | (Raise e, g1) => (Raise e, g1)
    end.
Proof.
  unfold process_data. rewrite for_item_in_app.
  destruct (for_item_in py xs [] g) as [[r1|e] g1]; [|done].
  apply for_item_in_results.
Qed.



(** ** Configuration writes *)

(** X4.  Writes to two different keys can be made in either order: the
    module state and the instance end up the same. *)
Theorem update_config_commute
    (g : globals) (self : UserService) (k1 k2 : string) (v1 v2 : value) :
  k1 ≠ k2 →
  ∃ st1 st2 st,
    update_config k1 v1 (g, self) = (Return (), st1)
    ∧ update_config k2 v2 st1 = (Return (), st)
    ∧ update_config k2 v2 (g, self) = (Return (), st2)
    ∧ update_config k1 v1 st2 = (Return (), st).
Proof.
  intros Hne. eexists _, _, _.
  split; [apply update_config_eq|].
  split; [apply update_config_eq|].
  split; [apply update_config_eq|].
  rewrite update_config_eq. simpl.
  by rewrite !(insert_insert_ne _ k1 k2).
Qed.

Lemma update_config_commute_witness :
  ∃ st1 st2 st,
    update_config "mode" (VStr "fast") (g0, __init__) = (Return (), st1)
    ∧ update_config "debug" (VBool false) st1 = (Return (), st)
    ∧ update_config "debug" (VBool false) (g0, __init__) = (Return (), st2)
    ∧ update_config "mode" (VStr "fast") st2 = (Return (), st).
Proof.
  apply (update_config_commute g0 __init__ "mode" "debug"). discriminate.
Defined.

(** X5.  The last write to a key wins: writing [v1] and then [v2] at the
    same key leaves the state that writing [v2] alone leaves, in the
    instance's config and in the module's cache alike. *)
Theorem update_config_overwrites
    (g : globals) (self : UserService) (key : string) (v1 v2 : value) :
  ∃ st1 st,
    update_config key v1 (g, self) = (Return (), st1)
    ∧ update_config key v2 st1 = (Return (), st)
    ∧ update_config key v2 (g, self) = (Return (), st).
Proof.
  eexists _, _.
  split; [apply update_config_eq|].
  split; [apply update_config_eq|].
  rewrite update_config_eq. simpl. by rewrite !insert_insert_eq.
Qed.

(** ** What the methods read *)



(** ** Calling [generate_id] directly *)

(** X7.  In a state reached by a run from the freshly imported module,
    [generate_id] returns a number greater than the id of every record of
    every instance and than every id handed out so far; it stores that
    number in [counter] and leaves the cache, the log and the instance as
    they were. *)
Theorem generate_id_fresh
    (py : interpreter) (cs : list call) (rs : list reply) (w : world)
    (i : nat) (self : UserService) :
  run py cs w0 = Some (rs, w) →
  instances w !! i = Some self →
  ∃ j g',
    generate_id (module w, self) = (Return j, (g', self))
    ∧ counter g' = j
    ∧ cache g' = cache (module w)
    ∧ logged g' = logged (module w)
    ∧ Forall (λ k, k < j) (all_ids w)
    ∧ Forall (λ k, k < j) (assigned_ids rs).
Proof.
  intros Hrun _.
  destruct (run_invariant _ _ _ _ _ store_invariant_w0 Hrun)
    as (Hinv & Hrs & _).
  eexists _, _. rewrite generate_id_eq. split; [reflexivity|]. simpl.
  repeat split.
  - eapply Forall_impl; [exact (inv_drawn w Hinv)|]. simpl. lia.
  - rewrite Hrs. apply Forall_forall. intros k Hk%elem_of_seqZ.
    simpl in Hk. lia.
Qed.

Lemma generate_id_fresh_witness :
  let w :=
    {| module := {| cache := ∅; counter := 2; logged := [] |};
       instances :=
         [ {| users := [User "ann" 30 1]; config := {["debug" := VBool true]} |};
           {| users := [User "bob" 41 2]; config := {["debug" := VBool true]} |}
         ] |} in
  let rs :=
    [Created 0; Added (Return (User "ann" 30 1)); Created 1;
     Added (Return (User "bob" 41 2))] in
  let self :=
    {| users := [User "ann" 30 1]; config := {["debug" := VBool true]} |} in
  ∃ j g',
    generate_id (module w, self) = (Return j, (g', self))
    ∧ counter g' = j
    ∧ cache g' = cache (module w)
    ∧ logged g' = logged (module w)
    ∧ Forall (λ k, k < j) (all_ids w)
    ∧ Forall (λ k, k < j) (assigned_ids rs).
Proof.
  intros w rs self.
  apply (generate_id_fresh (cpython 50)
           [New; AddUser 0 "ann" 30; New; AddUser 1 "bob" 41] rs w 0%nat self).
  - vm_compute. reflexivity.
  - reflexivity.
Defined.

(** ** Programs: what a run keeps *)

(** Splits a goal [do_call py c w = Some (r, w') → _] into the ways a call
    can go: a new instance, [add_user] raising, [add_user] returning,
    [generate_id], [find_user], [update_config] and [process_data]. *)
Ltac do_call_cases c :=
  destruct c as [|i name age|i|i name|i key v|items]; simpl;
  unfold on_instance;
  [ idtac
  | match goal with
    | |- context [instances ?w !! ?i] =>
        destruct (instances w !! i) as [self|] eqn:Hi; [|done]
    end;
    match goal with
    | |- context [add_user _ ?a _] =>
        destruct (Z.lt_ge_cases a 0) as [Hage|Hage];
        [rewrite add_user_raises by done|rewrite add_user_eq by done]
    end
  | match goal with
    | |- context [instances ?w !! ?i] =>
        destruct (instances w !! i) as [self|] eqn:Hi; [|done]
    end;
    rewrite generate_id_eq
  | match goal with
    | |- context [instances ?w !! ?i] =>
        destruct (instances w !! i) as [self|] eqn:Hi; [|done]
    end;
    rewrite find_user_eq
  | match goal with
    | |- context [instances ?w !! ?i] =>
        destruct (instances w !! i) as [self|] eqn:Hi; [|done]
    end;
    rewrite update_config_eq
  | match goal with
    | |- context [process_data ?py ?items ?g] =>
        destruct (process_data py items g) as [r0 g'] eqn:Hbatch;
        apply process_data_module in Hbatch as (Hcache & Hcounter & Hlog)
    end ];
  intros [= <- <-]; simpl.

Lemma run_preserves py (P : world → Prop) :
  (∀ c w r w', P w → do_call py c w = Some (r, w') → P w') →
  ∀ cs w rs w', P w → run py cs w = Some (rs, w') → P w'.
Proof.
  intros Hstep cs. induction cs as [|c cs IH]; intros w rs w' HP; simpl.
  - by intros [= <- <-].
  - destruct (do_call py c w) as [[r w1]|] eqn:Hc; simpl; [|done].
    destruct (run py cs w1) as [[rs1 w2]|] eqn:Hrun; simpl; [|done].
    intros [= <- <-]. eauto.
Qed.

Lemma total_records_insert (l : list UserService) (i : nat) self self' :
  l !! i = Some self →
  (sum_list_with (λ s, length (users s)) (<[i := self']> l)
   + length (users self))%nat
  = (sum_list_with (λ s, length (users s)) l + length (users self'))%nat.
Proof.
  intros Hi.
  destruct (instances_split _ i self self' Hi) as (l1 & l2 & Hl & ->).
  rewrite Hl, !sum_list_with_app. simpl. lia.
Qed.

Lemma do_call_total_records py c w r w' :
  do_call py c w = Some (r, w') →
  counter (module w') - Z.of_nat (total_records w')
  = counter (module w) - Z.of_nat (total_records w)
    + (if is_GenerateId c then 1 else 0).
Proof.
  unfold total_records. do_call_cases c.
  - rewrite sum_list_with_app. simpl. lia.
  - rewrite list_insert_id by done. lia.
  - pose proof (total_records_insert (instances w) i self
                  {| users := users self ++ [User name age (counter (module w) + 1)];
                     config := config self |} Hi) as Hsum.
    simpl in Hsum. rewrite length_app in Hsum. simpl in Hsum. lia.
  - rewrite list_insert_id by done. lia.
  - rewrite list_insert_id by done. lia.
  - pose proof (total_records_insert (instances w) i self
                  {| users := users self;
                     config := <[key := v]> (config self) |} Hi) as Hsum.
    simpl in Hsum. lia.
  - lia.
Qed.

Lemma run_total_records py cs w rs w' :
  run py cs w = Some (rs, w') →
  counter (module w') - Z.of_nat (total_records w')
  = counter (module w) - Z.of_nat (total_records w)
    + Z.of_nat (length (List.filter is_GenerateId cs)).
Proof.
  revert w rs. induction cs as [|c cs IH]; intros w rs; simpl.
  - intros [= <- <-]. lia.
  - destruct (do_call py c w) as [[r w1]|] eqn:Hc; simpl; [|done].
    destruct (run py cs w1) as [[rs1 w2]|] eqn:Hrun; simpl; [|done].
    intros [= <- <-].
    apply do_call_total_records in Hc. apply IH in Hrun.
    destruct (is_GenerateId c); simpl; lia.
Qed.

(** X8.  In every state a program can reach, [counter] is the number of
    records held by all the instances together plus the number of times the
    program called [generate_id] itself, and it is the number of ids handed
    out: an [add_user] that raises uses up no id, and no call removes a
    record. *)
Theorem counter_counts_records
    (py : interpreter) (cs : list call) (rs : list reply) (w : world) :
  run py cs w0 = Some (rs, w) →
  counter (module w)
  = Z.of_nat (total_records w)
    + Z.of_nat (length (List.filter is_GenerateId cs))
  ∧ Z.of_nat (length (assigned_ids rs)) = counter (module w).
Proof.
  intros Hrun. split.
  - apply run_total_records in Hrun.
    change (total_records w0) with 0%nat in Hrun.
    change (counter (module w0)) with 0 in Hrun. lia.
  - destruct (run_invariant _ _ _ _ _ store_invariant_w0 Hrun)
      as (_ & Hrs & Hle).
    rewrite Hrs, length_seqZ. simpl in *. lia.
Qed.

Lemma counter_counts_records_witness :
  let cs :=
    [New; AddUser 0 "ann" 30; New; AddUser 0 "eve" (-1); GenerateId 1;
     AddUser 1 "bob" 41] in
  let w :=
    {| module := {| cache := ∅; counter := 3; logged := [] |};
       instances :=
         [ {| users := [User "ann" 30 1]; config := {["debug" := VBool true]} |};
           {| users := [User "bob" 41 3]; config := {["debug" := VBool true]} |}
         ] |} in
  let rs :=
    [Created 0; Added (Return (User "ann" 30 1)); Created 1;
     Added (Raise (ValueError "Age cannot be negative"));
     Generated (Return 2); Added (Return (User "bob" 41 3))] in
  counter (module w)
  = Z.of_nat (total_records w)
    + Z.of_nat (length (List.filter is_GenerateId cs))
  ∧ Z.of_nat (length (assigned_ids rs)) = counter (module w).
Proof.
  intros cs w rs.
  apply (counter_counts_records (cpython 50) cs rs w).
  vm_compute. reflexivity.
Defined.

Lemma backed_insert (l : list UserService) (i : nat) self self' k (v : value) :
  l !! i = Some self →
  (config self !! k = Some v → config self' !! k = Some v) →
  (∃ j s, l !! j = Some s ∧ config s !! k = Some v) →
  ∃ j s, <[i := self']> l !! j = Some s ∧ config s !! k = Some v.
Proof.
  intros Hi Hkeep (j & s & Hj & Hk).
  destruct (decide (i = j)) as [<-|Hne].
  - exists i, self'. split.
    + apply list_lookup_insert_eq. by eapply lookup_lt_Some.
    + apply Hkeep. congruence.
  - exists j, s. by rewrite list_lookup_insert_ne.
Qed.

Lemma do_call_debug_key py c w r w' :
  Forall (λ self, is_Some (config self !! "debug")) (instances w) →
  do_call py c w = Some (r, w') →
  Forall (λ self, is_Some (config self !! "debug")) (instances w').
Proof.
  intros Hw. do_call_cases c.
  - apply Forall_app. split; [done|]. by repeat constructor.
  - by rewrite list_insert_id.
  - apply Forall_insert; [done|]. simpl.
    by eapply (Forall_lookup_1 _ _ _ _ Hw).
  - by rewrite list_insert_id.
  - by rewrite list_insert_id.
  - apply Forall_insert; [done|]. simpl.
    destruct (decide (key = "debug")) as [->|Hne].
    + rewrite lookup_insert_eq. by eexists.
    + rewrite lookup_insert_ne by done.
      by eapply (Forall_lookup_1 _ _ _ _ Hw).
  - done.
Qed.

Lemma do_call_cache_backed py c w r w' :
  (∀ k v, cache (module w) !! k = Some v →
          ∃ j s, instances w !! j = Some s ∧ config s !! k = Some v) →
  do_call py c w = Some (r, w') →
  ∀ k v, cache (module w') !! k = Some v →
         ∃ j s, instances w' !! j = Some s ∧ config s !! k = Some v.
Proof.
  intros Hw. do_call_cases c; intros k0 v0 Hk0.
  - destruct (Hw _ _ Hk0) as (j & s & Hj & Hs).
    exists j, s. split; [by apply lookup_app_l_Some|done].
  - rewrite list_insert_id by done. eauto.
  - eapply backed_insert; [done| |eauto]. done.
  - rewrite list_insert_id by done. eauto.
  - rewrite list_insert_id by done. eauto.
  - destruct (decide (key = k0)) as [->|Hne].
    + rewrite lookup_insert_eq in Hk0. injection Hk0 as ->.
      exists i, {| users := users self; config := <[k0 := v0]> (config self) |}.
      split; [|apply lookup_insert_eq].
      apply list_lookup_insert_eq. by eapply lookup_lt_Some.
    + rewrite lookup_insert_ne in Hk0 by done.
      eapply backed_insert; [done| |eauto]. simpl.
      by rewrite lookup_insert_ne.
  - rewrite Hcache in Hk0. eauto.
Qed.

(** X10.  In every state a program can reach, every instance has the key
    ["debug"] in its config, and every entry of the module's cache is an
    entry, same key and same value, of the config of some instance. *)
Theorem cache_backed_by_some_config
    (py : interpreter) (cs : list call) (rs : list reply) (w : world) :
  run py cs w0 = Some (rs, w) →
  (∀ i self, instances w !! i = Some self →
             is_Some (config self !! "debug"))
  ∧ (∀ k v, cache (module w) !! k = Some v →
            ∃ j s, instances w !! j = Some s ∧ config s !! k = Some v).
Proof.
  intros Hrun. split.
  - apply Forall_lookup.
    eapply (run_preserves py
              (λ w, Forall (λ self, is_Some (config self !! "debug"))
                      (instances w)));
      [apply do_call_debug_key| |exact Hrun].
    constructor.
  - eapply (run_preserves py
              (λ w, ∀ k v, cache (module w) !! k = Some v →
                           ∃ j s, instances w !! j = Some s
                                  ∧ config s !! k = Some v));
      [apply do_call_cache_backed| |exact Hrun].
    intros k v Hk. simpl in Hk. by rewrite lookup_empty in Hk.
Qed.

Lemma cache_backed_by_some_config_witness :
  let w :=
    {| module :=
         {| cache := <["mode" := VStr "slow"]> {["mode" := VStr "fast"]};
            counter := 0; logged := [] |};
       instances :=
         [ {| users := [];
              config := <["mode" := VStr "fast"]> {["debug" := VBool true]} |};
           {| users := [];
              config := <["mode" := VStr "slow"]> {["debug" := VBool true]} |}
         ] |} in
  (∀ i self, instances w !! i = Some self →
             is_Some (config self !! "debug"))
  ∧ (∀ k v, cache (module w) !! k = Some v →
            ∃ j s, instances w !! j = Some s ∧ config s !! k = Some v).
Proof.
  intros w.
  apply (cache_backed_by_some_config (cpython 50)
           [New; New; UpdateConfig 0 "mode" (VStr "fast");
            UpdateConfig 1 "mode" (VStr "slow")]
           [Created 0; Created 1; Updated (Return ()); Updated (Return ())] w).
  vm_compute. reflexivity.
Defined.

(** ** Programs: what a run never undoes *)

Lemma grows_refl w : grows w w.
Proof. intros i self Hi. exists self. by repeat split. Qed.

Lemma grows_trans w1 w2 w3 : grows w1 w2 → grows w2 w3 → grows w1 w3.
Proof.
  intros H12 H23 i self Hi.
  destruct (H12 _ _ Hi) as (self2 & Hi2 & Hprefix2 & Hkeys2).
  destruct (H23 _ _ Hi2) as (self3 & Hi3 & Hprefix3 & Hkeys3).
  exists self3. split; [done|]. split; [by etrans|]. auto.
Qed.

Lemma grows_insert w (i : nat) self self' g' :
  instances w !! i = Some self →
  users self `prefix_of` users self' →
  (∀ k, is_Some (config self !! k) → is_Some (config self' !! k)) →
  grows w {| module := g'; instances := <[i := self']> (instances w) |}.
Proof.
  intros Hi Hprefix Hkeys j other Hj. simpl.
  destruct (decide (i = j)) as [<-|Hne].
  - exists self'. rewrite list_lookup_insert_eq by by eapply lookup_lt_Some.
    by simplify_eq.
  - exists other. rewrite list_lookup_insert_ne by done. by repeat split.
Qed.

Lemma do_call_grows py c w r w' :
  do_call py c w = Some (r, w') → grows w w'.
Proof.
  do_call_cases c.
  - intros j other Hj. exists other. simpl.
    split; [by apply lookup_app_l_Some|]. by split.
  - by eapply grows_insert.
  - eapply grows_insert; [done| |done]. simpl. by apply prefix_app_r.
  - by eapply grows_insert.
  - by eapply grows_insert.
  - eapply grows_insert; [done|done|]. simpl. intros k Hk.
    destruct (decide (key = k)) as [->|Hne].
    + rewrite lookup_insert_eq. by eexists.
    + by rewrite lookup_insert_ne.
  - intros j other Hj. exists other. by repeat split.
Qed.

Lemma run_grows py cs w rs w' : run py cs w = Some (rs, w') → grows w w'.
Proof.
  revert w rs. induction cs as [|c cs IH]; intros w rs; simpl.
  - intros [= <- <-]. apply grows_refl.
  - destruct (do_call py c w) as [[r w1]|] eqn:Hc; simpl; [|done].
    destruct (run py cs w1) as [[rs1 w2]|] eqn:Hrun; simpl; [|done].
    intros [= <- <-].
    eapply grows_trans; [by eapply do_call_grows|by eapply IH].
Qed.

(** X11.  Nothing a program does removes, reorders or alters a record, or
    removes a config key: after any run, from any state, every instance is
    still there with its earlier users as the beginning of its list and
    with every config key it had, and a name that [find_user] found before
    the run is found after it, with the very same record. *)
Theorem find_user_stays_found
    (py : interpreter) (cs : list call) (w : world) (rs : list reply)
    (w' : world) (i : nat) (self : UserService) :
  run py cs w = Some (rs, w') →
  instances w !! i = Some self →
  ∃ self',
    instances w' !! i = Some self'
    ∧ users self `prefix_of` users self'
    ∧ (∀ k, is_Some (config self !! k) → is_Some (config self' !! k))
    ∧ ∀ name u,
        find_user name (module w, self) = (Return (Some u), (module w, self)) →
        find_user name (module w', self')
        = (Return (Some u), (module w', self')).
Proof.
  intros Hrun Hi.
  destruct (run_grows _ _ _ _ _ Hrun _ _ Hi)
    as (self' & Hi' & [more Hmore] & Hkeys).
  exists self'. split; [done|]. split; [by exists more|]. split; [done|].
  intros name u. rewrite !find_user_eq, Hmore, first_named_app.
  intros [= ->]. reflexivity.
Qed.

Lemma find_user_stays_found_witness :
  let w :=
    {| module := {| cache := ∅; counter := 1; logged := [] |};
       instances :=
         [ {| users := [User "ann" 30 1];
              config := {["debug" := VBool true]} |} ] |} in
  let w' :=
    {| module :=
         {| cache := {["debug" := VNone]}; counter := 2;
            logged :=
              [ERROR VNone
                 (TypeError
                    "unsupported operand type(s) for *: 'NoneType' and 'int'")]
         |};
       instances :=
         [ {| users := [User "ann" 30 1; User "ann" 5 2];
              config := <["debug" := VNone]> {["debug" := VBool true]} |} ] |}
  in
  ∃ self',
    instances w' !! 0%nat = Some self'
    ∧ users {| users := [User "ann" 30 1];
               config := {["debug" := VBool true]} |}
      `prefix_of` users self'
    ∧ (∀ k,
         is_Some (config {| users := [User "ann" 30 1];
                            config := {["debug" := VBool true]} |} !! k) →
         is_Some (config self' !! k))
    ∧ ∀ name u,
        find_user name
          (module w,
           {| users := [User "ann" 30 1];
              config := {["debug" := VBool true]} |})
        = (Return (Some u),
           (module w,
            {| users := [User "ann" 30 1];
               config := {["debug" := VBool true]} |})) →
        find_user name (module w', self')
        = (Return (Some u), (module w', self')).
Proof.
  intros w w'.
  apply (find_user_stays_found (cpython 50)
           [AddUser 0 "ann" 5; UpdateConfig 0 "debug" VNone;
            ProcessData [VNone; VInt 2]; FindUser 0 "ann"]
           w
           [Added (Return (User "ann" 5 2)); Updated (Return ());
            Processed (Return [VInt 4]);
            Found (Return (Some (User "ann" 30 1)))]
           w' 0%nat).
  - vm_compute. reflexivity.
  - reflexivity.
Defined.

(** ** Programs: the module state after a run *)

Lemma do_call_module py c w r w' :
  do_call py c w = Some (r, w') →
  cache (module w') = setitems (cache (module w)) (writes_of c)
  ∧ counter (module w')
    = counter (module w) + (if takes_id c then 1 else 0)
  ∧ logged (module w) `prefix_of` logged (module w').
Proof.
  do_call_cases c; rewrite ?Z.add_0_r; try done.
  - destruct (Z.ltb_spec age 0); [|lia]. simpl.
    by rewrite Z.add_0_r.
  - by destruct (Z.ltb_spec age 0); [lia|].
Qed.

(** X12.  What a run does to the module state is fixed by the calls
    made, not by the instances they were made on: [cache] is what it was
    with the [update_config] writes of all instances applied in call order,
    [counter] has grown by the number of [add_user] calls whose age was not
    negative and of direct [generate_id] calls, and the log has only been
    extended at the end. *)
Theorem module_state_after_run
    (py : interpreter) (cs : list call) (w : world) (rs : list reply)
    (w' : world) :
  run py cs w = Some (rs, w') →
  cache (module w') = setitems (cache (module w)) (cs ≫= writes_of)
  ∧ counter (module w')
    = counter (module w) + Z.of_nat (length (List.filter takes_id cs))
  ∧ logged (module w) `prefix_of` logged (module w').
Proof.
  revert w rs. induction cs as [|c cs IH]; intros w rs; simpl.
  - intros [= <- <-]. by rewrite Z.add_0_r.
  - destruct (do_call py c w) as [[r w1]|] eqn:Hc; simpl; [|done].
    destruct (run py cs w1) as [[rs1 w2]|] eqn:Hrun; simpl; [|done].
    intros [= <- <-].
    destruct (do_call_module _ _ _ _ _ Hc) as (Hcache & Hcounter & Hlog).
    destruct (IH _ _ Hrun) as (-> & -> & Hlog').
    rewrite Hcache, Hcounter.
    unfold setitems. rewrite foldl_app.
    split; [done|]. split; [|by etrans].
    destruct (takes_id c); simpl; lia.
Qed.

Lemma module_state_after_run_witness :
  let cs :=
    [New; New; UpdateConfig 0 "mode" (VStr "fast"); AddUser 1 "bob" 41;
     AddUser 0 "eve" (-1); GenerateId 0; ProcessData [VInt 1; VNone];
     UpdateConfig 1 "mode" (VStr "slow")] in
  let w' :=
    {| module :=
         {| cache := <["mode" := VStr "slow"]> {["mode" := VStr "fast"]};
            counter := 2;
            logged :=
              [ERROR VNone
                 (TypeError
                    "unsupported operand type(s) for *: 'NoneType' and 'int'")]
         |};
       instances :=
         [ {| users := [];
              config := <["mode" := VStr "fast"]> {["debug" := VBool true]} |};
           {| users := [User "bob" 41 1];
              config := <["mode" := VStr "slow"]> {["debug" := VBool true]} |}
         ] |} in
  cache (module w') = setitems (cache (module w0)) (cs ≫= writes_of)
  ∧ counter (module w')
    = counter (module w0) + Z.of_nat (length (List.filter takes_id cs))
  ∧ logged (module w0) `prefix_of` logged (module w').
Proof.
  intros cs w'.
  apply (module_state_after_run (cpython 50) cs w0
           [Created 0; Created 1; Updated (Return ());
            Added (Return (User "bob" 41 1));
            Added (Raise (ValueError "Age cannot be negative"));
            Generated (Return 2);
            Processed (Return [VInt 2]); Updated (Return ())] w').
  vm_compute. reflexivity.
Defined.

(** ** Programs: where config entries come from *)

Lemma do_call_config_mirrored py c w r w' :
  Forall (λ self, ∀ k v, config self !! k = Some v →
                         (k = "debug" ∧ v = VBool true)
                         ∨ is_Some (cache (module w) !! k)) (instances w) →
  do_call py c w = Some (r, w') →
  Forall (λ self, ∀ k v, config self !! k = Some v →
                         (k = "debug" ∧ v = VBool true)
                         ∨ is_Some (cache (module w') !! k)) (instances w').
Proof.
  intros Hw. do_call_cases c.
  - apply Forall_app. split; [done|]. constructor; [|constructor].
    simpl. intros k v' [<- <-]%lookup_singleton_Some. by left.
  - by rewrite list_insert_id.
  - apply Forall_insert; [done|]. simpl.
    by eapply (Forall_lookup_1 _ _ _ _ Hw).
  - by rewrite list_insert_id.
  - by rewrite list_insert_id.
  - apply Forall_insert.
    + eapply Forall_impl; [exact Hw|]. simpl. intros s Hs k v' Hk.
      destruct (Hs _ _ Hk) as [?|Hc]; [by left|right].
      destruct (decide (key = k)) as [->|Hne].
      * rewrite lookup_insert_eq. by eexists.
      * by rewrite lookup_insert_ne.
    + simpl. intros k v' Hk.
      destruct (decide (key = k)) as [->|Hne].
      * right. rewrite lookup_insert_eq. by eexists.
      * rewrite lookup_insert_ne in Hk |- * by done.
        by eapply (Forall_lookup_1 _ _ _ _ Hw).
  - by rewrite Hcache.
Qed.

(** X13.  In every state a program can reach, every entry of every
    instance's config is either the ["debug": True] an instance starts
    with, or sits at a key the module's cache has too: no key gets into a
    config without getting into the cache. *)
Theorem config_keys_mirrored
    (py : interpreter) (cs : list call) (rs : list reply) (w : world)
    (i : nat) (self : UserService) (k : string) (v : value) :
  run py cs w0 = Some (rs, w) →
  instances w !! i = Some self →
  config self !! k = Some v →
  (k = "debug" ∧ v = VBool true) ∨ is_Some (cache (module w) !! k).
Proof.
  intros Hrun Hi Hk.
  assert (Forall (λ self, ∀ k v, config self !! k = Some v →
                                 (k = "debug" ∧ v = VBool true)
                                 ∨ is_Some (cache (module w) !! k))
            (instances w)) as Hall.
  { eapply (run_preserves py
              (λ w, Forall (λ self, ∀ k v, config self !! k = Some v →
                                           (k = "debug" ∧ v = VBool true)
                                           ∨ is_Some (cache (module w) !! k))
                      (instances w)));
      [apply do_call_config_mirrored| |exact Hrun].
    constructor. }
  by eapply (Forall_lookup_1 _ _ _ _ Hall Hi).
Qed.

Lemma config_keys_mirrored_witness :
  ("mode" = "debug" ∧ VStr "fast" = VBool true)
  ∨ is_Some
      (cache
         (module
            {| module :=
                 {| cache := {["mode" := VStr "fast"]}; counter := 0;
                    logged := [] |};
               instances :=
                 [ {| users := [];
                      config :=
                        <["mode" := VStr "fast"]> {["debug" := VBool true]} |}
                 ] |}) !! "mode").
Proof.
  apply (config_keys_mirrored (cpython 50)
           [New; UpdateConfig 0 "mode" (VStr "fast")]
           [Created 0; Updated (Return ())]
           {| module :=
                {| cache := {["mode" := VStr "fast"]}; counter := 0;
                   logged := [] |};
              instances :=
                [ {| users := [];
                     config :=
                       <["mode" := VStr "fast"]> {["debug" := VBool true]} |}
                ] |}
           0%nat
           {| users := [];
              config := <["mode" := VStr "fast"]> {["debug" := VBool true]} |}
           "mode" (VStr "fast")).
  - vm_compute. reflexivity.
  - reflexivity.
  - vm_compute. reflexivity.
Defined.
